(** * Glamify scraper example: Extractor and Affiliate Linker

    A shallow embedding of [examples/glamify_scraper_example.py]:
    - [AffiliateLinkGenerator]: the class with its table [affiliate_ids] and
      the method [generate_link];
    - [BeautyProductSpider]: the generator method [parse].

    Python [str] values are modelled by [string] (sequences of 8-bit
    characters), [None] by the [None] of [option]; a [dict] with string keys
    is a [gmap string _]. *)

From Stdlib Require Import Ascii String.
From stdpp Require Import base option list strings gmap.

Local Open Scope string_scope.

(** ** Python primitives used by the script *)

Module Py.

(** Exceptions the embedded statements can raise. *)
Inductive exn : Type :=
| KeyError (key : string)
| ValueError (message : string)
| OtherError (class_name message : string).

(** Outcome of a call: a returned value or a raised exception. *)
Inductive result (A : Type) : Type :=
| Ok (a : A)
| Raise (e : exn).
Arguments Ok {A} a.
Arguments Raise {A} e.

(** Truth value of a [str]: only the empty string is falsy. *)
Definition truthy (s : string) : bool :=
  match s with
  | EmptyString => false
  | String _ _ => true
  end.

(** [c in s] for a one-character needle [c]. *)
Fixpoint str_contains (c : ascii) (s : string) : bool :=
  match s with
  | EmptyString => false
  | String a s' => if decide (a = c) then true else str_contains c s'
  end.

(** [s.count(c)] for a one-character needle [c]. *)
Fixpoint str_count (c : ascii) (s : string) : nat :=
  match s with
  | EmptyString => 0
  | String a s' => (if decide (a = c) then 1 else 0) + str_count c s'
  end.

(** [s.startswith(p)]. *)
Fixpoint startswith (p s : string) : bool :=
  match p, s with
  | EmptyString, _ => true
  | String a p', String b s' => if decide (a = b) then startswith p' s' else false
  | String _ _, EmptyString => false
  end.

(** [s.endswith(p)]: some prefix of [s] followed by [p] gives [s]. *)
Definition endswith (p s : string) : Prop := ∃ front, s = front +:+ p.

End Py.

(** ** The Affiliate Linker *)

Module AffiliateLinkGenerator.
Import Py.

(** Instance state: the only attribute is [self.affiliate_ids]. *)
Record instance : Type := Instance { affiliate_ids : gmap string string }.

(** Methods run on an instance and may raise: a state and exception
    monad over [instance]. *)
Definition M (A : Type) : Type := instance → result A * instance.

Definition ret {A} (a : A) : M A := λ self, (Ok a, self).

Definition bind {A B} (k : A → M B) (m : M A) : M B :=
  λ self,
    match m self with
    | (Ok a, self') => k a self'
    | (Raise e, self') => (Raise e, self')
    end.

#[export] Instance M_ret : MRet M := @ret.
#[export] Instance M_bind : MBind M := @bind.

(** Attribute read [self.affiliate_ids]. *)
Definition get_affiliate_ids : M (gmap string string) :=
  λ self, (Ok (affiliate_ids self), self).

(** Membership test [k in d]. *)
Definition dict_contains (d : gmap string string) (k : string) : bool :=
  bool_decide (is_Some (d !! k)).

(** Subscription [d[k]]; a missing key raises [KeyError]. *)
Definition dict_getitem (d : gmap string string) (k : string) : M string :=
  λ self,
    match d !! k with
    | Some v => (Ok v, self)
    | None => (Raise (KeyError k), self)
    end.

(** [__init__]: the table the constructor installs. *)
Definition default_affiliate_ids : gmap string string :=
  <["sephora" := "your_sephora_affiliate_id"]>
  (<["amazon" := "your_amazon_affiliate_id"]>
  (<["namshi" := "your_namshi_affiliate_id"]> ∅)).

Definition init : instance := Instance default_affiliate_ids.

(** [generate_link(self, platform, product_url)]. *)
Definition generate_link (platform product_url : string) : M string :=
  ids ← get_affiliate_ids;
  if negb (dict_contains ids platform) then
    mret product_url
  else
    ids' ← get_affiliate_ids;
    affiliate_id ← dict_getitem ids' platform;
    if decide (platform = "sephora") then
      let separator := if str_contains "?" product_url then "&" else "?" in
      mret (product_url +:+ separator +:+ "affiliate=" +:+ affiliate_id)
    else if decide (platform = "amazon") then
      mret (product_url +:+ "?tag=" +:+ affiliate_id)
    else
      mret product_url.

(** The link as a function of the table, the platform and the URL. *)
Definition link_of (ids : gmap string string) (platform product_url : string)
  : string :=
  match ids !! platform with
  | None => product_url
  | Some affiliate_id =>
      if decide (platform = "sephora") then
        product_url +:+ (if str_contains "?" product_url then "&" else "?")
          +:+ "affiliate=" +:+ affiliate_id
      else if decide (platform = "amazon") then
        product_url +:+ "?tag=" +:+ affiliate_id
      else product_url
  end.

(** A client of one instance: a sequence of [generate_link] calls, each
    running on the state the previous one left behind.  The results are
    collected in call order. *)
Fixpoint run_calls (calls : list (string * string)) (self : instance)
  : list (result string) * instance :=
  match calls with
  | [] => ([], self)
  | (platform, product_url) :: rest =>
      let '(r, self') := generate_link platform product_url self in
      let '(rs, self'') := run_calls rest self' in
      (r :: rs, self'')
  end.

End AffiliateLinkGenerator.

(** ** URL resolution

    [response.urljoin(u)] is the standard library's [urllib.parse.urljoin]
    applied to the page's base URL and [u]; [response.follow(u, callback)]
    requests the URL so obtained.  The library routine is not part of the
    repository.  The model below follows it, as of CPython 3.11, for [str]
    arguments: the two guards on empty arguments, the split into scheme,
    authority, path, parameters, query and fragment, the merge of the
    reference path with the base path, the removal of dot segments and the
    recomposition, and the [ValueError] it raises for an authority with
    unbalanced square brackets.  Two further checks of the authority, which
    differ between versions of the library or need its character tables,
    are parameters: [check_bracketed_netloc] for an authority with a
    bracketed host and [check_netloc_normal] for one with characters
    outside ASCII. *)

Module PyResult.
Import Py.

(** Sequencing of calls that may raise. *)
#[export] Instance result_ret : MRet result := @Ok.
#[export] Instance result_bind : MBind result :=
  λ A B f r, match r with Ok a => f a | Raise e => Raise e end.

End PyResult.

Module Urllib.
Import Py PyResult.

(** The checks the library makes of an authority that has both an opening
    and a closing square bracket, and of one that has a character outside
    ASCII: each returns, or raises. *)
Class UrlChecks : Type := {
  check_bracketed_netloc : string → result unit;
  check_netloc_normal : string → result unit
}.

Definition uses_relative : list string :=
  [""; "ftp"; "http"; "gopher"; "nntp"; "imap"; "wais"; "file"; "https";
   "shttp"; "mms"; "prospero"; "rtsp"; "rtspu"; "sftp"; "svn"; "svn+ssh";
   "ws"; "wss"].

Definition uses_netloc : list string :=
  [""; "ftp"; "http"; "gopher"; "nntp"; "telnet"; "imap"; "wais"; "file";
   "mms"; "https"; "shttp"; "snews"; "prospero"; "rtsp"; "rtspu"; "rsync";
   "svn"; "svn+ssh"; "sftp"; "nfs"; "git"; "git+ssh"; "ws"; "wss"].

Definition uses_params : list string :=
  [""; "ftp"; "hdl"; "prospero"; "http"; "imap"; "https"; "shttp"; "rtsp";
   "rtspu"; "sip"; "sips"; "mms"; "sftp"; "tel"].

Definition str_in (s : string) (l : list string) : bool :=
  bool_decide (s ∈ l).

Definition code (a : ascii) : nat := nat_of_ascii a.

Definition between (lo hi n : nat) : bool := (lo <=? n)%nat && (n <=? hi)%nat.

Definition is_upper (a : ascii) : bool := between 65 90 (code a).
Definition is_alpha (a : ascii) : bool :=
  is_upper a || between 97 122 (code a).
Definition is_scheme_char (a : ascii) : bool :=
  is_alpha a || between 48 57 (code a)
  || bool_decide (a = "+"%char) || bool_decide (a = "-"%char)
  || bool_decide (a = "."%char).

Definition lower_char (a : ascii) : ascii :=
  if is_upper a then ascii_of_nat (code a + 32) else a.

Fixpoint lower (s : string) : string :=
  match s with
  | EmptyString => EmptyString
  | String a s' => String (lower_char a) (lower s')
  end.

Fixpoint str_forall (p : ascii → bool) (s : string) : bool :=
  match s with
  | EmptyString => true
  | String a s' => p a && str_forall p s'
  end.

Fixpoint str_filter (p : ascii → bool) (s : string) : string :=
  match s with
  | EmptyString => EmptyString
  | String a s' => if p a then String a (str_filter p s') else str_filter p s'
  end.

(** Leading C0 control characters and spaces are dropped. *)
Fixpoint lstrip_c0 (s : string) : string :=
  match s with
  | EmptyString => EmptyString
  | String a s' => if (code a <=? 32)%nat then lstrip_c0 s' else s
  end.

Definition strip_c0 (s : string) : string :=
  String.rev (lstrip_c0 (String.rev (lstrip_c0 s))).

(** Tab, carriage return and line feed are removed wherever they are. *)
Definition remove_unsafe (s : string) : string :=
  str_filter (λ a, negb (bool_decide (code a = 9) || bool_decide (code a = 13)
                         || bool_decide (code a = 10))) s.

(** [s.partition(c)]: the text before the first [c], and the text after it
    when [c] occurs. *)
Fixpoint partition (c : ascii) (s : string) : string * option string :=
  match s with
  | EmptyString => (EmptyString, None)
  | String a s' =>
      if decide (a = c) then (EmptyString, Some s')
      else let '(h, t) := partition c s' in (String a h, t)
  end.

(** [s.rpartition(c)] when [c] occurs: the text before and after the last
    [c]. *)
Fixpoint rpartition (c : ascii) (s : string) : option (string * string) :=
  match s with
  | EmptyString => None
  | String a s' =>
      match rpartition c s' with
      | Some (h, t) => Some (String a h, t)
      | None => if decide (a = c) then Some (EmptyString, s') else None
      end
  end.

(** [s.split(c)]: never empty. *)
Fixpoint split (c : ascii) (s : string) : list string :=
  match s with
  | EmptyString => [EmptyString]
  | String a s' =>
      if decide (a = c) then EmptyString :: split c s'
      else match split c s' with
           | h :: t => String a h :: t
           | [] => [String a EmptyString]
           end
  end.

(** [c.join(l)]. *)
Fixpoint join (c : string) (l : list string) : string :=
  match l with
  | [] => EmptyString
  | [x] => x
  | x :: l' => x +:+ c +:+ join c l'
  end.

Record ParseResult : Type := mkParseResult {
  scheme : string; netloc : string; path : string;
  params : string; query : string; fragment : string }.

(** The scheme prefix [url[:i]] before the first colon, when it is a
    scheme. *)
Definition split_scheme (url dflt : string) : string * string :=
  match partition ":" url with
  | (String a pre, Some rest) =>
      if is_alpha a && str_forall is_scheme_char (String a pre)
      then (lower (String a pre), rest)
      else (dflt, url)
  | _ => (dflt, url)
  end.

Definition is_netloc_delim (a : ascii) : bool :=
  bool_decide (a = "/"%char) || bool_decide (a = "?"%char)
  || bool_decide (a = "#"%char).

Fixpoint span_netloc (s : string) : string * string :=
  match s with
  | EmptyString => (EmptyString, EmptyString)
  | String a s' =>
      if is_netloc_delim a then (EmptyString, s)
      else let '(n, r) := span_netloc s' in (String a n, r)
  end.

Definition split_netloc (url : string) : string * string :=
  match url with
  | String "/" (String "/" rest) => span_netloc rest
  | _ => (EmptyString, url)
  end.

Definition split_once (c : ascii) (url : string) : string * string :=
  match partition c url with
  | (h, Some t) => (h, t)
  | (_, None) => (url, EmptyString)
  end.

(** [_splitparams(url)], called only when [url] contains a semicolon. *)
Definition splitparams (url : string) : string * string :=
  match rpartition "/" url with
  | Some (h, t) =>
      match partition ";" t with
      | (t1, Some p) => (h +:+ "/" +:+ t1, p)
      | (_, None) => (url, EmptyString)
      end
  | None => split_once ";" url
  end.

(** The checks of the authority: unbalanced brackets raise
    [ValueError("Invalid IPv6 URL")]; balanced ones are left to
    [check_bracketed_netloc]. *)
Definition check_brackets `{UrlChecks} (net : string) : result unit :=
  let has_open := str_contains "[" net in
  let has_close := str_contains "]" net in
  if (has_open && negb has_close) || (has_close && negb has_open)
  then Raise (ValueError "Invalid IPv6 URL")
  else if has_open && has_close then check_bracketed_netloc net
  else Ok tt.

(** [s.isascii()]. *)
Definition isascii (s : string) : bool :=
  str_forall (λ a, (code a <? 128)%nat) s.

(** [_checknetloc(netloc)]: nothing to check for an empty or ASCII
    authority. *)
Definition check_normal `{UrlChecks} (net : string) : result unit :=
  if negb (truthy net) || isascii net then Ok tt
  else check_netloc_normal net.

Definition check_netloc `{UrlChecks} (net : string) : result unit :=
  _ ← check_brackets net;
  check_normal net.

(** [urlparse(url, scheme)]. *)
Definition urlparse `{UrlChecks} (url0 scheme0 : string) : result ParseResult :=
  let url := remove_unsafe (lstrip_c0 url0) in
  let dflt := remove_unsafe (strip_c0 scheme0) in
  let '(sch, url) := split_scheme url dflt in
  let '(net, url) := split_netloc url in
  _ ← check_netloc net;
  let '(url, frag) := split_once "#" url in
  let '(url, qry) := split_once "?" url in
  let '(url, prm) :=
    if str_in sch uses_params && str_contains ";" url
    then splitparams url else (url, EmptyString) in
  mret (mkParseResult sch net url prm qry frag).

(** [urlunparse(components)]. *)
Definition urlunparse (r : ParseResult) : string :=
  let url := if truthy (params r) then path r +:+ ";" +:+ params r else path r in
  let url :=
    if truthy (netloc r)
       || (truthy (scheme r) && str_in (scheme r) uses_netloc
           && negb (startswith "//" url))
    then
      let url := if truthy url && negb (startswith "/" url)
                 then "/" +:+ url else url in
      "//" +:+ netloc r +:+ url
    else url in
  let url := if truthy (scheme r) then scheme r +:+ ":" +:+ url else url in
  let url := if truthy (query r) then url +:+ "?" +:+ query r else url in
  if truthy (fragment r) then url +:+ "#" +:+ fragment r else url.

(** [base_parts]: the base path's segments without the last one unless it
    is empty. *)
Definition base_parts (bpath : string) : list string :=
  let parts := split "/" bpath in
  match last parts with
  | Some EmptyString => parts
  | _ => removelast parts
  end.

(** [segments[1:-1] = filter(None, segments[1:-1])]. *)
Definition drop_inner_empty (segments : list string) : list string :=
  match segments with
  | first :: (_ :: _) as rest =>
      (first :: List.filter truthy (removelast rest) ++ option_list (last rest))%list
  | _ => segments
  end.

(** The loop that removes dot segments; [resolved] is kept in reverse. *)
Fixpoint resolve_segments (segments resolved : list string) : list string :=
  match segments with
  | [] => rev resolved
  | seg :: rest =>
      if decide (seg = "..") then resolve_segments rest (tail resolved)
      else if decide (seg = ".") then resolve_segments rest resolved
      else resolve_segments rest (seg :: resolved)
  end.

(** [urljoin(base, url)] for two non-empty strings, once both are
    parsed. *)
Definition join_parsed (url : string) (b u : ParseResult) : string :=
  if negb (bool_decide (scheme u = scheme b))
     || negb (str_in (scheme u) uses_relative)
  then url
  else if str_in (scheme u) uses_netloc && truthy (netloc u)
  then urlunparse u
  else
    let net := if str_in (scheme u) uses_netloc then netloc b else netloc u in
    if negb (truthy (path u)) && negb (truthy (params u)) then
      let qry := if truthy (query u) then query u else query b in
      urlunparse (mkParseResult (scheme u) net (path b) (params b) qry (fragment u))
    else
      let segments :=
        if startswith "/" (path u) then split "/" (path u)
        else drop_inner_empty (base_parts (path b) ++ split "/" (path u))%list in
      let resolved := resolve_segments segments [] in
      let resolved :=
        match last segments with
        | Some seg =>
            if bool_decide (seg = ".") || bool_decide (seg = "..")
            then (resolved ++ [EmptyString])%list else resolved
        | None => resolved
        end in
      let joined := join "/" resolved in
      let joined := if truthy joined then joined else "/" in
      urlunparse (mkParseResult (scheme u) net joined (params u) (query u) (fragment u)).

(** [urljoin(base, url)] for two non-empty strings: the base is parsed
    first, then the reference with the scheme of the base as default. *)
Definition resolve `{UrlChecks} (base url : string) : result string :=
  b ← urlparse base "";
  u ← urlparse url (scheme b);
  mret (join_parsed url b u).

(** [urljoin(base, url)] for [str] arguments. *)
Definition urljoin_str `{UrlChecks} (base url : string) : result string :=
  if negb (truthy base) then Ok url
  else if negb (truthy url) then Ok base
  else resolve base url.

(** [urljoin(base, url)] where [url] may be [None]. *)
Definition urljoin `{UrlChecks} (base : string) (url : option string)
  : result (option string) :=
  match url with
  | Some u => u' ← urljoin_str base u; mret (Some u')
  | None => Ok (if negb (truthy base) then None else Some base)
  end.

End Urllib.

(** ** The Extractor *)

Module Scrapy.
Import Py PyResult.

(** The selector objects of the scraping library, as far as the script
    uses them: [sel.css(query)] gives the matches in document order, and
    [sel.get()] the text or attribute value of a match. *)
Class SelectorAPI (Sel : Type) : Type := {
  css : Sel → string → list Sel;
  get_data : Sel → string
}.

(** [SelectorList.get()]: the data of the first match, [None] without a
    match. *)
Definition get `{SelectorAPI Sel} (matches : list Sel) : option string :=
  match matches with
  | [] => None
  | first :: _ => Some (get_data first)
  end.

(** A fetched page: its root selector and its base URL.  The library
    computes the base URL from the page's own URL and its [<base>] element
    the first time it is asked for, and raises if it cannot. *)
Record Response (Sel : Type) : Type := mkResponse {
  base_url : result string;
  selector : Sel
}.
Arguments mkResponse {Sel} base_url selector.
Arguments base_url {Sel} r.
Arguments selector {Sel} r.

(** The callback of a request: the library's default, or a method of the
    spider, named. *)
Inductive callback : Type :=
| cb_default
| cb_method (name : string).

(** The library's request objects.  [new_request response url callback] is
    the request [response.follow] builds for the joined URL [url]: the
    constructor normalises the URL and raises [ValueError] for one it does
    not accept. *)
Class RequestAPI (Sel Req : Type) : Type := {
  new_request : Response Sel → string → callback → result Req
}.

Section Response.
Context `{SelectorAPI Sel} `{RequestAPI Sel Req} `{Urllib.UrlChecks}.

(** [response.css(query)]. *)
Definition response_css (response : Response Sel) (query : string) : list Sel :=
  css (selector response) query.

(** [response.urljoin(url)]. *)
Definition response_urljoin (response : Response Sel) (u : option string)
  : result (option string) :=
  base ← base_url response;
  Urllib.urljoin base u.

(** [response.urljoin(url)] for a [str] url. *)
Definition response_urljoin_str (response : Response Sel) (u : string)
  : result string :=
  base ← base_url response;
  Urllib.urljoin_str base u.

(** [response.follow(url, callback)] for a [str] url: the URL is joined to
    the base URL and a request is built for the result. *)
Definition response_follow (response : Response Sel) (u : string)
    (cb : callback) : result Req :=
  joined ← response_urljoin_str response u;
  new_request response joined cb.
End Response.

End Scrapy.

Module BeautyProductSpider.
Import Py PyResult Scrapy.

(** A yielded product record: a [dict] from field name to a [str] or
    [None]. *)
Abbreviation item := (gmap string (option string)).

(** What [parse] yields: product records and requests. *)
Inductive output (Req : Type) : Type :=
| YieldItem (record : item)
| YieldRequest (request : Req).
Arguments YieldItem {Req} record.
Arguments YieldRequest {Req} request.

(** A generator run to its end: what it yielded, in order, and how it
    ended, by returning or by raising. *)
Definition gen (Req A : Type) : Type := list (output Req) * result A.

Definition gen_ret {Req A} (a : A) : gen Req A := ([], Ok a).

Definition gen_bind {Req A B} (k : A → gen Req B) (m : gen Req A) : gen Req B :=
  match m with
  | (outs, Ok a) => let '(outs', r) := k a in ((outs ++ outs')%list, r)
  | (outs, Raise e) => (outs, Raise e)
  end.

#[export] Instance gen_mret {Req} : MRet (gen Req) := @gen_ret Req.
#[export] Instance gen_mbind {Req} : MBind (gen Req) := @gen_bind Req.

(** [yield o]. *)
Definition yield {Req} (o : output Req) : gen Req unit := ([o], Ok tt).

(** A call that yields nothing itself. *)
Definition call {Req A} (r : result A) : gen Req A := ([], r).

(** [for x in l: body(x)]. *)
Fixpoint for_each {Req X} (body : X → gen Req unit) (l : list X) : gen Req unit :=
  match l with
  | [] => mret tt
  | x :: l' => body x;; for_each body l'
  end.

(** A [dict] display [{k1: v1, ..., kn: vn}]: a later entry with the same
    key overwrites an earlier one. *)
Definition dict_literal (entries : list (string * option string)) : item :=
  foldl (λ d kv, <[kv.1 := kv.2]> d) ∅ entries.

(** Truth value of [next_page], a [str] or [None]. *)
Definition truthy_opt (v : option string) : bool :=
  match v with
  | Some s => truthy s
  | None => false
  end.

(** The selectors of the seven fields that are stored as selected. *)
Definition selected_fields : list (string * string) :=
  [("name", ".product-name::text");
   ("price", ".product-price::text");
   ("rating", ".product-rating::attr(data-rating)");
   ("image_url", ".product-image img::attr(src)");
   ("description", ".product-description::text");
   ("brand", ".product-brand::text");
   ("category", ".product-category::text")].

(** The records among the outputs, and the requests among them. *)
Definition records {Req A} (g : gen Req A) : list item :=
  omap (λ o, match o with YieldItem r => Some r | _ => None end) g.1.

Definition requests {Req A} (g : gen Req A) : list Req :=
  omap (λ o, match o with YieldRequest r => Some r | _ => None end) g.1.

(** The field of a record is absent: the key is there with [None]. *)
Definition field_absent (record : item) (field : string) : Prop :=
  record !! field = Some None.

Section Parse.
Context `{SelectorAPI Sel} `{RequestAPI Sel Req} `{Urllib.UrlChecks}.

(** The [dict] display of the loop body, for one product element: its
    values are computed in order, the last one by [response.urljoin]. *)
Definition product_record (response : Response Sel) (product : Sel)
  : result item :=
  let name := get (css product ".product-name::text") in
  let price := get (css product ".product-price::text") in
  let rating := get (css product ".product-rating::attr(data-rating)") in
  let image_url := get (css product ".product-image img::attr(src)") in
  let description := get (css product ".product-description::text") in
  let brand := get (css product ".product-brand::text") in
  let category := get (css product ".product-category::text") in
  url ← response_urljoin response
         (get (css product ".product-link::attr(href)"));
  mret (dict_literal [
    ("name", name); ("price", price); ("rating", rating);
    ("image_url", image_url); ("description", description);
    ("brand", brand); ("category", category); ("url", url)]).

(** The body of the loop over the product elements. *)
Definition yield_product (response : Response Sel) (product : Sel)
  : gen Req unit :=
  record ← call (product_record response product);
  yield (YieldItem record).

(** The pagination step after the loop. *)
Definition follow_next_page (response : Response Sel) : gen Req unit :=
  let next_page := get (response_css response ".next-page::attr(href)") in
  if truthy_opt next_page then
    match next_page with
    | Some href =>
        request ← call (response_follow response href (cb_method "parse"));
        yield (YieldRequest request)
    | None => mret tt
    end
  else mret tt.

(** [parse(self, response)]: everything the generator yields, in order, and
    how it ends. *)
Definition parse (response : Response Sel) : gen Req unit :=
  let products := response_css response ".product-item" in
  for_each (yield_product response) products;;
  follow_next_page response.


(** Reading "a product without a link has no url": when the link
    selector matches nothing in a product element, its record is built and
    the [url] field of the record is absent. *)
Definition missing_link_url_absent (response : Response Sel) (product : Sel)
  : Prop :=
  get (css product ".product-link::attr(href)") = None →
  ∃ record : item,
    product_record response product = Ok record
    ∧ field_absent record "url".

(** Every product element of the page gets its record built. *)
Definition products_extracted (response : Response Sel) : Prop :=
  ∀ product : Sel,
    product ∈ response_css response ".product-item" →
    ∃ record : item, product_record response product = Ok record.

(** Reading "one record per matched product element". *)
Definition one_record_per_product (response : Response Sel) : Prop :=
  length (records (parse response))
  = length (response_css response ".product-item").
End Parse.

End BeautyProductSpider.

(** ** A concrete selector engine

    A selector is given by its data and by the matches it answers to each
    query; a query it does not list matches nothing. *)

Module Canned.
Import Py Scrapy.

#[warnings="-register-all"]
Inductive sel : Type :=
| Node (data : string) (answers : list (string * list sel)).

Fixpoint assoc {A} (q : string) (l : list (string * list A)) : list A :=
  match l with
  | [] => []
  | (k, v) :: l' => if decide (k = q) then v else assoc q l'
  end.

#[export] Instance canned_api : SelectorAPI sel := {
  css n q := match n with Node _ answers => assoc q answers end;
  get_data n := match n with Node data _ => data end
}.

(** A match carrying only text or an attribute value. *)
Definition leaf (data : string) : sel := Node data [].

(** [needle in s] for a needle of any length. *)
Fixpoint str_contains_sub (needle s : string) : bool :=
  startswith needle s
  || match s with
     | EmptyString => false
     | String _ s' => str_contains_sub needle s'
     end.

(** A request, by its URL and callback. *)
Record Request : Type := mkRequest { url : string; request_callback : callback }.

(** A request constructor that keeps the URL as it is given and makes the
    scheme check of the library's constructor; it stands for the library
    on URLs the library leaves as they are. *)
#[export] Instance checked_requests : RequestAPI sel Request := {
  new_request _ u cb :=
    if str_contains_sub "://" u || startswith "about:" u || startswith "data:" u
    then Ok (mkRequest u cb)
    else Raise (ValueError ("Missing scheme in request url: " +:+ u))
}.

(** A URL library that accepts every authority with balanced brackets and
    every authority with characters outside ASCII. *)
#[export] Instance lenient_checks : Urllib.UrlChecks := {
  check_bracketed_netloc _ := Ok tt;
  check_netloc_normal _ := Ok tt
}.

End Canned.

(** ** Example pages and calls *)

Module Examples.
Import Py Scrapy Canned.

Definition listing_url : string := "https://example-beauty-site.com/products".

(** One product element with a name and a price but no
    [.product-link]; no pagination element. *)
Definition product_without_link : sel :=
  Node "" [(".product-name::text", [leaf "Lipstick"]);
           (".product-price::text", [leaf "19.99"])].

Definition page_without_link : Response sel :=
  mkResponse (Ok listing_url)
    (Node "" [(".product-item", [product_without_link])]).

(** A product element in which every selector of [parse] matches. *)
Definition full_product : sel :=
  Node "" [(".product-name::text", [leaf "Lipstick"]);
           (".product-price::text", [leaf "19.99"]);
           (".product-rating::attr(data-rating)", [leaf "4.5"]);
           (".product-image img::attr(src)", [leaf "/img/1.png"]);
           (".product-description::text", [leaf "Matte red"]);
           (".product-brand::text", [leaf "Glam"]);
           (".product-category::text", [leaf "Lips"]);
           (".product-link::attr(href)", [leaf "/p/1"])].

(** Two products and a pagination link to [/page/2]. *)
Definition page_with_next : Response sel :=
  mkResponse (Ok listing_url)
    (Node "" [(".product-item", [full_product; product_without_link]);
              (".next-page::attr(href)", [leaf "/page/2"])]).

(** A pagination element whose [href] attribute is empty. *)
Definition page_with_empty_next : Response sel :=
  mkResponse (Ok listing_url)
    (Node "" [(".product-item", [full_product]);
              (".next-page::attr(href)", [leaf ""])]).

(** No pagination element and no product. *)
Definition empty_page : Response sel :=
  mkResponse (Ok listing_url) (Node "" []).

(** A product whose link has an href with an unbalanced bracket in its
    authority. *)
Definition product_with_bad_href : sel :=
  Node "" [(".product-name::text", [leaf "Mascara"]);
           (".product-link::attr(href)", [leaf "//[::1"])].

(** The product with the bad href, followed by a well-formed one, and a
    pagination link. *)
Definition page_with_bad_href : Response sel :=
  mkResponse (Ok listing_url)
    (Node "" [(".product-item", [product_with_bad_href; full_product]);
              (".next-page::attr(href)", [leaf "/page/2"])]).

(** A pagination element whose href is a [mailto:] URL. *)
Definition page_with_mailto_next : Response sel :=
  mkResponse (Ok listing_url)
    (Node "" [(".product-item", [full_product]);
              (".next-page::attr(href)", [leaf "mailto:shop@example.com"])]).

End Examples.

(** ** Properties of the string primitives *)

Section StringFacts.
Import Py.

Lemma append_cons (a : ascii) (s t : string) :
  String a s +:+ t = String a (s +:+ t).
Proof. reflexivity. Qed.

Lemma append_nil_r (s : string) : s +:+ "" = s.
Proof.
  induction s as [|a s IH]; [done |].
  by rewrite append_cons, IH.
Qed.

Lemma append_assoc (s t u : string) : (s +:+ t) +:+ u = s +:+ (t +:+ u).
Proof.
  induction s as [|a s IH]; [done |].
  by rewrite !append_cons, IH.
Qed.

Lemma str_count_app (c : ascii) (s t : string) :
  str_count c (s +:+ t) = str_count c s + str_count c t.
Proof.
  induction s as [|a s IH]; [done |].
  rewrite append_cons. simpl. rewrite IH. lia.
Qed.

Lemma str_contains_count (c : ascii) (s : string) :
  str_contains c s = true → (1 ≤ str_count c s)%nat.
Proof.
  induction s as [|a s IH]; simpl; [done |].
  case_decide; [lia |]. intros Hc. specialize (IH Hc). lia.
Qed.

Lemma startswith_app (p s : string) : startswith p (p +:+ s) = true.
Proof.
  induction p as [|a p IH]; [done |].
  rewrite append_cons. simpl. by rewrite decide_True.
Qed.

End StringFacts.

(** ** URL resolution on the examples of RFC 3986, section 5.4 *)

Module UrllibFacts.
Import Py PyResult Urllib.

Section Facts.
Context `{UrlChecks}.

Example urljoin_absolute_path :
  urljoin_str "http://a/b/c/d;p?q" "/g" = Ok "http://a/g".
Proof. reflexivity. Qed.

Example urljoin_relative_path :
  urljoin_str "http://a/b/c/d;p?q" "g" = Ok "http://a/b/c/g".
Proof. reflexivity. Qed.

Example urljoin_parent_path :
  urljoin_str "http://a/b/c/d;p?q" "../g" = Ok "http://a/b/g".
Proof. reflexivity. Qed.

Example urljoin_query_only :
  urljoin_str "http://a/b/c/d;p?q" "?y" = Ok "http://a/b/c/d;p?y".
Proof. reflexivity. Qed.

Example urljoin_network_path :
  urljoin_str "http://a/b/c/d;p?q" "//g" = Ok "http://g".
Proof. reflexivity. Qed.

Example urljoin_other_scheme :
  urljoin_str "http://a/b/c/d;p?q" "mailto:someone" = Ok "mailto:someone".
Proof. reflexivity. Qed.

(** An authority with an unbalanced bracket is rejected, in the reference
    and in the base. *)
Example urljoin_unbalanced_reference :
  urljoin_str "https://example-beauty-site.com/products" "//[::1"
  = Raise (ValueError "Invalid IPv6 URL").
Proof. reflexivity. Qed.

Example urljoin_unbalanced_base :
  urljoin_str "http://a]/x" "/g" = Raise (ValueError "Invalid IPv6 URL").
Proof. reflexivity. Qed.

(** Without a reference the base comes back, unparsed; without a base the
    reference does. *)
Lemma urljoin_None (base : string) :
  base ≠ "" → urljoin base None = Ok (Some base).
Proof. by destruct base. Qed.

Lemma urljoin_empty (base : string) :
  base ≠ "" → urljoin base (Some "") = Ok (Some base).
Proof. by destruct base. Qed.

Lemma urljoin_Some (base u joined : string) :
  urljoin_str base u = Ok joined → urljoin base (Some u) = Ok (Some joined).
Proof. intros Hj. unfold urljoin. by rewrite Hj. Qed.

Lemma urljoin_Ok_is_Some (base : string) (u v : option string) :
  base ≠ "" → urljoin base u = Ok v → is_Some v.
Proof.
  intros Hbase. destruct u as [u|]; simpl.
  - destruct (urljoin_str base u); simpl; [| done]. intros [= <-]. eauto.
  - destruct base; [done |]. intros [= <-]. eauto.
Qed.

End Facts.

End UrllibFacts.

(** ** Properties of the Affiliate Linker *)

Module AffiliateLinkGeneratorFacts.
Import Py AffiliateLinkGenerator.

(** A call returns [link_of] and leaves the instance as it was. *)
Lemma generate_link_run (platform product_url : string) (self : instance) :
  generate_link platform product_url self
  = (Ok (link_of (affiliate_ids self) platform product_url), self).
Proof.
  unfold generate_link, link_of, mbind, M_bind, bind, get_affiliate_ids,
    dict_contains, dict_getitem, mret, M_ret, ret.
  destruct (affiliate_ids self !! platform) as [affiliate_id|] eqn:Hid.
  - rewrite bool_decide_eq_true_2 by eauto. simpl. rewrite Hid.
    by repeat case_decide.
  - rewrite bool_decide_eq_false_2 by (by intros [? ?]). done.
Qed.

Lemma link_of_prefix (ids : gmap string string) (platform product_url : string) :
  ∃ suffix, link_of ids platform product_url = product_url +:+ suffix.
Proof.
  unfold link_of. destruct (ids !! platform) as [affiliate_id|].
  - repeat case_decide; eauto using eq_sym, append_nil_r.
  - eauto using eq_sym, append_nil_r.
Qed.

Lemma default_lookup_sephora :
  default_affiliate_ids !! "sephora" = Some "your_sephora_affiliate_id".
Proof. reflexivity. Qed.

Lemma default_lookup_amazon :
  default_affiliate_ids !! "amazon" = Some "your_amazon_affiliate_id".
Proof. reflexivity. Qed.

Lemma default_lookup_namshi :
  default_affiliate_ids !! "namshi" = Some "your_namshi_affiliate_id".
Proof. reflexivity. Qed.

Lemma default_lookup_other (platform : string) :
  platform ≠ "sephora" → platform ≠ "amazon" → platform ≠ "namshi" →
  default_affiliate_ids !! platform = None.
Proof.
  intros H1 H2 H3. unfold default_affiliate_ids.
  by rewrite !lookup_insert_ne, lookup_empty.
Qed.

End AffiliateLinkGeneratorFacts.

Module AffiliateLinkGeneratorSpec.
Import Py AffiliateLinkGenerator AffiliateLinkGeneratorFacts.

(** C2. For every product URL, [generate_link('amazon', product_url)]
    returns the URL followed by ["?tag="] and the amazon affiliate id of the
    table, whether or not the URL already has a ['?']; when it has one, the
    result has at least two. *)
Theorem generate_link_amazon_appends_tag
    (self : instance) (affiliate_id product_url : string) :
  affiliate_ids self !! "amazon" = Some affiliate_id →
  generate_link "amazon" product_url self
  = (Ok (product_url +:+ "?tag=" +:+ affiliate_id), self)
  ∧ (str_contains "?" product_url = true →
     (2 ≤ str_count "?" (product_url +:+ "?tag=" +:+ affiliate_id))%nat).
Proof.
  intros Hid. split.
  - rewrite generate_link_run. unfold link_of. rewrite Hid.
    rewrite decide_False by done. by rewrite decide_True.
  - intros Hq. apply str_contains_count in Hq.
    rewrite !str_count_app. simpl. lia.
Qed.

Lemma generate_link_amazon_appends_tag_witness :
  affiliate_ids init !! "amazon" = Some "your_amazon_affiliate_id"
  ∧ generate_link "amazon" "https://amazon.ae/p/1?x=1" init
    = (Ok "https://amazon.ae/p/1?x=1?tag=your_amazon_affiliate_id", init)
  ∧ (str_contains "?" "https://amazon.ae/p/1?x=1" = true →
     (2 ≤ str_count "?" "https://amazon.ae/p/1?x=1?tag=your_amazon_affiliate_id")%nat).
Proof.
  split; [reflexivity |].
  apply (generate_link_amazon_appends_tag init
           "your_amazon_affiliate_id" "https://amazon.ae/p/1?x=1").
  reflexivity.
Defined.

(** C3. For every product URL, [generate_link('sephora', product_url)]
    returns the URL followed by a separator, ["affiliate="] and the sephora
    affiliate id of the table; the separator is ['&'] if the URL contains a
    ['?'] anywhere and ['?'] otherwise.  With the table of [__init__],
    ['https://sephora.com/p/1'] gives
    ['https://sephora.com/p/1?affiliate=your_sephora_affiliate_id'] and the
    link for ['https://sephora.com/p/1?color=red'] ends in
    ['&affiliate=your_sephora_affiliate_id']. *)
Theorem generate_link_sephora_appends_affiliate :
  (∀ (self : instance) (affiliate_id product_url : string),
     affiliate_ids self !! "sephora" = Some affiliate_id →
     generate_link "sephora" product_url self
     = (Ok (product_url
            +:+ (if str_contains "?" product_url then "&" else "?")
            +:+ "affiliate=" +:+ affiliate_id), self))
  ∧ generate_link "sephora" "https://sephora.com/p/1" init
    = (Ok "https://sephora.com/p/1?affiliate=your_sephora_affiliate_id", init)
  ∧ (∃ link,
       generate_link "sephora" "https://sephora.com/p/1?color=red" init
       = (Ok link, init)
       ∧ endswith "&affiliate=your_sephora_affiliate_id" link).
Proof.
  split; [| split].
  - intros self affiliate_id product_url Hid.
    rewrite generate_link_run. unfold link_of. rewrite Hid.
    by rewrite decide_True.
  - by rewrite generate_link_run.
  - eexists. split; [by rewrite generate_link_run |].
    by exists "https://sephora.com/p/1?color=red".
Qed.

Lemma generate_link_sephora_appends_affiliate_witness :
  affiliate_ids init !! "sephora" = Some "your_sephora_affiliate_id"
  ∧ generate_link "sephora" "https://sephora.com/product/lipstick-123" init
    = (Ok "https://sephora.com/product/lipstick-123?affiliate=your_sephora_affiliate_id",
       init).
Proof.
  split; [reflexivity |].
  apply (proj1 generate_link_sephora_appends_affiliate init
           "your_sephora_affiliate_id"
           "https://sephora.com/product/lipstick-123").
  reflexivity.
Defined.

(** C4. For every platform that is not a key of the table and every
    product URL, [generate_link] returns the URL unchanged.  The keys of the
    table of [__init__] are ['sephora'], ['amazon'] and ['namshi'], so with
    it every other platform, ['unknown'] for one, leaves the URL as it
    is. *)
Theorem generate_link_unknown_platform_identity :
  (∀ (self : instance) (platform product_url : string),
     affiliate_ids self !! platform = None →
     generate_link platform product_url self = (Ok product_url, self))
  ∧ dom default_affiliate_ids = ({["sephora"; "amazon"; "namshi"]} : gset string)
  ∧ (∀ platform product_url : string,
       platform ∉ dom default_affiliate_ids →
       generate_link platform product_url init = (Ok product_url, init))
  ∧ generate_link "unknown" "https://x.com/p/1" init
    = (Ok "https://x.com/p/1", init).
Proof.
  assert (Hnone : ∀ (self : instance) (platform product_url : string),
    affiliate_ids self !! platform = None →
    generate_link platform product_url self = (Ok product_url, self)).
  { intros self platform product_url Hid.
    rewrite generate_link_run. unfold link_of. by rewrite Hid. }
  split; [exact Hnone |]. split; [| split].
  - unfold default_affiliate_ids. rewrite !dom_insert_L, dom_empty_L.
    set_solver.
  - intros platform product_url Hnot. apply Hnone.
    by apply not_elem_of_dom.
  - by apply Hnone.
Qed.

Lemma generate_link_unknown_platform_identity_witness :
  affiliate_ids init !! "ebay" = None
  ∧ generate_link "ebay" "https://ebay.com/itm/7" init
    = (Ok "https://ebay.com/itm/7", init).
Proof.
  split; [reflexivity |].
  apply (proj1 generate_link_unknown_platform_identity init "ebay"
           "https://ebay.com/itm/7").
  reflexivity.
Defined.

(** C5. For every product URL, [generate_link('namshi', product_url)]
    returns the URL unchanged, although the table of [__init__] has an
    affiliate id for ['namshi']; the same holds for every platform that is a
    key of the table but is neither ['sephora'] nor ['amazon']. *)
Theorem generate_link_namshi_identity :
  default_affiliate_ids !! "namshi" = Some "your_namshi_affiliate_id"
  ∧ (∀ product_url : string,
       generate_link "namshi" product_url init = (Ok product_url, init))
  ∧ (∀ (self : instance) (platform product_url : string),
       is_Some (affiliate_ids self !! platform) →
       platform ≠ "sephora" → platform ≠ "amazon" →
       generate_link platform product_url self = (Ok product_url, self)).
Proof.
  split; [reflexivity |]. split.
  - intros product_url. by rewrite generate_link_run.
  - intros self platform product_url [affiliate_id Hid] Hs Ha.
    rewrite generate_link_run. unfold link_of. rewrite Hid.
    by rewrite !decide_False.
Qed.

Lemma generate_link_namshi_identity_witness :
  is_Some (affiliate_ids init !! "namshi")
  ∧ "namshi" ≠ "sephora" ∧ "namshi" ≠ "amazon"
  ∧ generate_link "namshi" "https://namshi.com/p/1" init
    = (Ok "https://namshi.com/p/1", init).
Proof.
  split; [by eexists |]. split; [done |]. split; [done |].
  apply (proj2 (proj2 generate_link_namshi_identity) init "namshi"
           "https://namshi.com/p/1"); [by eexists | done | done].
Defined.

(** C6. [generate_link] is total and pure: for every instance, platform and
    product URL the call returns a string, raises nothing (the guarded
    table lookup cannot raise [KeyError]), leaves the instance as it was,
    and its result is determined by the table, the platform and the URL. *)
Theorem generate_link_total_pure
    (self : instance) (platform product_url : string) :
  ∃ link : string,
    generate_link platform product_url self = (Ok link, self)
    ∧ ∀ self' : instance,
        affiliate_ids self' = affiliate_ids self →
        generate_link platform product_url self' = (Ok link, self').
Proof.
  exists (link_of (affiliate_ids self) platform product_url).
  split; [apply generate_link_run |].
  intros self' Heq. by rewrite generate_link_run, Heq.
Qed.

(** C9. The table is fixed at construction: a call of [generate_link]
    leaves the instance as it was, so after any sequence of calls on an
    instance its [affiliate_ids] is what it was before, and on a fresh
    instance it is the table of [__init__]. *)
Theorem affiliate_ids_unchanged_by_calls :
  (∀ (self : instance) (platform product_url : string),
     (generate_link platform product_url self).2 = self)
  ∧ (∀ (calls : list (string * string)) (self : instance),
       affiliate_ids (run_calls calls self).2 = affiliate_ids self)
  ∧ (∀ calls : list (string * string),
       affiliate_ids (run_calls calls init).2 = default_affiliate_ids).
Proof.
  assert (Hrun : ∀ (calls : list (string * string)) (self : instance),
    (run_calls calls self).2 = self).
  { induction calls as [|[platform product_url] rest IH]; intros self.
    - reflexivity.
    - simpl. rewrite generate_link_run.
      specialize (IH self). destruct (run_calls rest self) as [rs self''].
      exact IH. }
  split; [| split].
  - intros self platform product_url. by rewrite generate_link_run.
  - intros calls self. by rewrite Hrun.
  - intros calls. by rewrite Hrun.
Qed.

(** C10. For every platform and product URL the link has the product URL
    as a prefix: it is the URL, or the URL with a suffix appended. *)
Theorem generate_link_extends_url
    (self : instance) (platform product_url : string) :
  ∃ suffix : string,
    generate_link platform product_url self
    = (Ok (product_url +:+ suffix), self)
    ∧ startswith product_url (product_url +:+ suffix) = true.
Proof.
  destruct (link_of_prefix (affiliate_ids self) platform product_url)
    as [suffix Hs].
  exists suffix. split; [| apply startswith_app].
  by rewrite generate_link_run, Hs.
Qed.

End AffiliateLinkGeneratorSpec.

(** ** Properties of the Extractor *)

Module BeautyProductSpiderFacts.
Import Py PyResult Scrapy BeautyProductSpider.

Section Facts.
Context `{SelectorAPI Sel} `{RequestAPI Sel Req} `{Urllib.UrlChecks}.
Implicit Types (response : Response Sel) (product : Sel) (record : item).

(** The record of a product, entry by entry, once its URL is joined. *)
Lemma product_record_unfold response product :
  product_record response product
  = (url ← response_urljoin response
             (get (css product ".product-link::attr(href)"));
     mret (<["url" := url]>
       (<["category" := get (css product ".product-category::text")]>
       (<["brand" := get (css product ".product-brand::text")]>
       (<["description" := get (css product ".product-description::text")]>
       (<["image_url" := get (css product ".product-image img::attr(src)")]>
       (<["rating" := get (css product ".product-rating::attr(data-rating)")]>
       (<["price" := get (css product ".product-price::text")]>
       (<["name" := get (css product ".product-name::text")]> ∅))))))))).
Proof. reflexivity. Qed.

(** A record is built exactly when the URL is joined without error. *)
Lemma product_record_Ok_inv response product record :
  product_record response product = Ok record →
  ∃ url : option string,
    response_urljoin response (get (css product ".product-link::attr(href)"))
    = Ok url
    ∧ record
      = <["url" := url]>
        (<["category" := get (css product ".product-category::text")]>
        (<["brand" := get (css product ".product-brand::text")]>
        (<["description" := get (css product ".product-description::text")]>
        (<["image_url" := get (css product ".product-image img::attr(src)")]>
        (<["rating" := get (css product ".product-rating::attr(data-rating)")]>
        (<["price" := get (css product ".product-price::text")]>
        (<["name" := get (css product ".product-name::text")]> ∅))))))).
Proof.
  rewrite product_record_unfold.
  destruct (response_urljoin response
              (get (css product ".product-link::attr(href)"))) as [url|e];
    simpl; [| done].
  intros [= <-]. by exists url.
Qed.

Lemma product_record_Ok_intro response product (url : option string) :
  response_urljoin response (get (css product ".product-link::attr(href)"))
  = Ok url →
  ∃ record, product_record response product = Ok record.
Proof. intros Hu. rewrite product_record_unfold, Hu. simpl. eauto. Qed.

Lemma product_record_Raise response product (e : exn) :
  response_urljoin response (get (css product ".product-link::attr(href)"))
  = Raise e →
  product_record response product = Raise e.
Proof. intros Hu. by rewrite product_record_unfold, Hu. Qed.

Lemma product_record_dom response product record :
  product_record response product = Ok record →
  dom record
  = ({["name"; "price"; "rating"; "image_url"; "description"; "brand";
       "category"; "url"]} : gset string).
Proof.
  intros Hr. apply product_record_Ok_inv in Hr as [url [_ ->]].
  rewrite !dom_insert_L, dom_empty_L. set_solver.
Qed.

Lemma product_record_selected response product record (field query : string) :
  product_record response product = Ok record →
  (field, query) ∈ selected_fields →
  record !! field = Some (get (css product query)).
Proof.
  intros Hr Hin. apply product_record_Ok_inv in Hr as [url [_ ->]].
  unfold selected_fields in Hin.
  repeat (apply elem_of_cons in Hin as [Heq | Hin];
          [injection Heq as -> ->; by simplify_map_eq |]).
  by apply elem_of_nil in Hin.
Qed.

Lemma product_record_url response product record :
  product_record response product = Ok record →
  ∃ url : option string,
    response_urljoin response (get (css product ".product-link::attr(href)"))
    = Ok url
    ∧ record !! "url" = Some url.
Proof.
  intros Hr. apply product_record_Ok_inv in Hr as [url [Hu ->]].
  exists url. split; [done |]. by simplify_map_eq.
Qed.

(** The join of the response, on a page whose base URL is known. *)
Lemma response_urljoin_base response (base : string) (u : option string) :
  base_url response = Ok base →
  response_urljoin response u = Urllib.urljoin base u.
Proof. intros Hb. unfold response_urljoin. by rewrite Hb. Qed.

Lemma response_urljoin_str_base response (base u : string) :
  base_url response = Ok base →
  response_urljoin_str response u = Urllib.urljoin_str base u.
Proof. intros Hb. unfold response_urljoin_str. by rewrite Hb. Qed.

Lemma response_urljoin_Some response (u joined : string) :
  response_urljoin_str response u = Ok joined →
  response_urljoin response (Some u) = Ok (Some joined).
Proof.
  unfold response_urljoin_str, response_urljoin.
  destruct (base_url response) as [base|e]; simpl; [| done].
  apply UrllibFacts.urljoin_Some.
Qed.

(** A field stored as selected is absent exactly when its selector matches
    nothing in the product element. *)
Lemma product_record_selected_absent response product record
    (field query : string) :
  product_record response product = Ok record →
  (field, query) ∈ selected_fields →
  field_absent record field ↔ css product query = [].
Proof.
  intros Hr Hin. unfold field_absent.
  rewrite (product_record_selected _ _ _ _ _ Hr Hin).
  destruct (css product query); simpl; naive_solver.
Qed.

(** The loop body. *)
Lemma yield_product_Ok response product record :
  product_record response product = Ok record →
  yield_product (Req := Req) response product = ([YieldItem record], Ok tt).
Proof. intros Hr. unfold yield_product. by rewrite Hr. Qed.

Lemma yield_product_Raise response product (e : exn) :
  product_record response product = Raise e →
  yield_product (Req := Req) response product = ([], Raise e).
Proof. intros Hr. unfold yield_product. by rewrite Hr. Qed.

Lemma for_each_cons {X} (body : X → gen Req unit) (x : X) (l : list X) :
  for_each body (x :: l)
  = match body x with
    | (outs, Ok _) =>
        ((outs ++ (for_each body l).1)%list, (for_each body l).2)
    | (outs, Raise e) => (outs, Raise e)
    end.
Proof.
  simpl. unfold mbind, gen_mbind, gen_bind.
  destruct (body x) as [outs [[]|e]]; [| done].
  by destruct (for_each body l).
Qed.

(** The loop over the product elements yields the records of the longest
    run of products whose records are built, and ends with the error of
    the first product whose record is not. *)
Lemma products_loop response (products : list Sel) :
  ∃ (done rest : list Sel) (recs : list item),
    products = (done ++ rest)%list
    ∧ Forall2 (λ product record, product_record response product = Ok record)
        done recs
    ∧ (for_each (yield_product (Req := Req) response) products).1
      = map YieldItem recs
    ∧ match rest with
      | [] => (for_each (yield_product (Req := Req) response) products).2 = Ok tt
      | product :: _ =>
          ∃ e, product_record response product = Raise e
               ∧ (for_each (yield_product (Req := Req) response) products).2
                 = Raise e
      end.
Proof.
  induction products as [|p ps IH].
  - exists [], [], []. by repeat split.
  - rewrite for_each_cons.
    destruct (product_record response p) as [r|e] eqn:Hr.
    + rewrite (yield_product_Ok _ _ _ Hr).
      destruct IH as (done & rest & recs & -> & Hall & Houts & Hend).
      exists (p :: done), rest, (r :: recs). simpl.
      split; [done |]. split; [by constructor |].
      split; [by rewrite Houts |]. exact Hend.
    + rewrite (yield_product_Raise _ _ _ Hr).
      exists [], (p :: ps), []. simpl.
      split; [done |]. split; [constructor |]. split; [done |].
      by exists e.
Qed.

(** The pagination step. *)
Lemma follow_next_page_cases response :
  match get (response_css response ".next-page::attr(href)") with
  | Some (String a href) =>
      follow_next_page (Req := Req) response
      = match response_follow response (String a href) (cb_method "parse") with
        | Ok request => ([YieldRequest request], Ok tt)
        | Raise e => ([], Raise e)
        end
  | _ => follow_next_page (Req := Req) response = ([], Ok tt)
  end.
Proof.
  unfold follow_next_page.
  destruct (get (response_css response ".next-page::attr(href)"))
    as [[|a href]|]; reflexivity.
Qed.

Lemma records_follow_next_page response :
  records (follow_next_page (Req := Req) response) = [].
Proof.
  pose proof (follow_next_page_cases response) as Hc.
  destruct (get (response_css response ".next-page::attr(href)"))
    as [[|a href]|]; rewrite Hc; try done.
  by destruct (response_follow response (String a href) (cb_method "parse")).
Qed.

(** [parse] is the loop followed, if it ends without error, by the
    pagination step. *)
Lemma parse_unfold response :
  parse (Req := Req) response
  = match for_each (yield_product response)
            (response_css response ".product-item") with
    | (outs, Ok _) =>
        ((outs ++ (follow_next_page response).1)%list,
         (follow_next_page response).2)
    | (outs, Raise e) => (outs, Raise e)
    end.
Proof.
  unfold parse, mbind, gen_mbind, gen_bind.
  destruct (for_each (yield_product response)
              (response_css response ".product-item")) as [outs [[]|e]];
    [| done].
  by destruct (follow_next_page response).
Qed.

Lemma records_items (recs : list item) (outs : list (output Req)) (r : result unit) :
  records ((map YieldItem recs ++ outs)%list, r) = (recs ++ records (outs, r))%list.
Proof.
  unfold records. simpl. rewrite omap_app. f_equal.
  induction recs as [|x recs IH]; [done |].
  simpl. f_equal. exact IH.
Qed.


(** The run of [parse], in full: the records of the products extracted,
    then the outputs of the pagination step if every product was
    extracted. *)
Lemma parse_run response :
  ∃ (done rest : list Sel) (recs : list item),
    response_css response ".product-item" = (done ++ rest)%list
    ∧ Forall2 (λ product record, product_record response product = Ok record)
        done recs
    ∧ match rest with
      | [] =>
          parse (Req := Req) response
          = ((map YieldItem recs ++ (follow_next_page response).1)%list,
             (follow_next_page response).2)
      | product :: _ =>
          ∃ e, product_record response product = Raise e
               ∧ parse (Req := Req) response = (map YieldItem recs, Raise e)
      end.
Proof.
  destruct (products_loop response (response_css response ".product-item"))
    as (done & rest & recs & Hsplit & Hall & Houts & Hend).
  exists done, rest, recs. split; [done |]. split; [done |].
  rewrite parse_unfold.
  destruct (for_each (yield_product response)
              (response_css response ".product-item")) as [outs r].
  simpl in Houts, Hend. subst outs.
  destruct rest as [|p rest'].
  - by rewrite Hend.
  - destruct Hend as [e [Hp ->]]. by exists e.
Qed.

Lemma records_fst {A} (g : gen Req A) (r : result A) :
  records (g.1, r) = records g.
Proof. reflexivity. Qed.


Lemma records_only_items (recs : list item) (r : result unit) :
  records (Req := Req) (map YieldItem recs, r) = recs.
Proof.
  rewrite <- (app_nil_r (map YieldItem recs)), records_items.
  apply app_nil_r.
Qed.


(** The two ways [parse] runs: every product is extracted and the
    pagination step follows, or the loop stops at a product with an
    error. *)
Lemma parse_cases response :
  (products_extracted response
   ∧ ∃ recs : list item,
       Forall2 (λ product record, product_record response product = Ok record)
         (response_css response ".product-item") recs
       ∧ parse (Req := Req) response
         = ((map YieldItem recs ++ (follow_next_page response).1)%list,
            (follow_next_page response).2))
  ∨ (¬ products_extracted response
     ∧ ∃ (recs : list item) (e : exn),
         (length recs < length (response_css response ".product-item"))%nat
         ∧ parse (Req := Req) response = (map YieldItem recs, Raise e)).
Proof.
  destruct (parse_run response) as (done & rest & recs & Hsplit & Hrecs & Hend).
  destruct rest as [|p rest'].
  - left. rewrite app_nil_r in Hsplit. rewrite Hsplit. split.
    + intros product Hin. rewrite Hsplit in Hin.
      apply list_elem_of_lookup in Hin as [i Hi].
      destruct (Forall2_lookup_l _ _ _ _ _ Hrecs Hi) as (record & _ & Hr).
      by exists record.
    + by exists recs.
  - right. destruct Hend as [e [Hp Hparse]]. split.
    + intros Hall. destruct (Hall p) as [r Hr]; [rewrite Hsplit; set_solver |].
      rewrite Hp in Hr. discriminate Hr.
    + exists recs, e. split; [| done].
      rewrite Hsplit, length_app, (Forall2_length _ _ _ Hrecs). simpl. lia.
Qed.




Lemma requests_follow_next_page_le response :
  (length (requests (follow_next_page (Req := Req) response)) ≤ 1)%nat.
Proof.
  pose proof (follow_next_page_cases response) as Hc.
  destruct (get (response_css response ".next-page::attr(href)"))
    as [[|a href]|]; rewrite Hc; try (simpl; lia).
  destruct (response_follow response (String a href) (cb_method "parse"));
    simpl; lia.
Qed.


Lemma follow_next_page_ordered response :
  (follow_next_page (Req := Req) response).1
  = map YieldRequest (requests (follow_next_page (Req := Req) response)).
Proof.
  pose proof (follow_next_page_cases response) as Hc.
  destruct (get (response_css response ".next-page::attr(href)"))
    as [[|a href]|]; rewrite Hc; try done.
  by destruct (response_follow response (String a href) (cb_method "parse")).
Qed.


End Facts.

End BeautyProductSpiderFacts.

Module BeautyProductSpiderSpec.
Import Py PyResult Scrapy BeautyProductSpider BeautyProductSpiderFacts Canned
  Examples.

Section Spec.
Context `{SelectorAPI Sel} `{RequestAPI Sel Req} `{Urllib.UrlChecks}.
Implicit Types (response : Response Sel) (product : Sel).

(** C8, as the code has it. For every page, [parse] yields the records of
    the elements matched by ['.product-item'] in the order of the matches,
    one per element, up to the first element whose record cannot be built
    because [response.urljoin] raises on its link; there the generator
    ends with that error.  When every record can be built there is exactly
    one record per matched element.  For a product element in which the
    eight selectors all match and whose href is joined to the base URL
    without error, the record has exactly the fields name, price, rating,
    image_url, description, brand, category and url, each holding the
    selected text or attribute value, the url field holding the joined
    URL. *)
Theorem parse_one_record_per_product response :
  (∃ done rest : list Sel,
     response_css response ".product-item" = (done ++ rest)%list
     ∧ Forall2 (λ product record, product_record response product = Ok record)
         done (records (parse (Req := Req) response))
     ∧ match rest with
       | [] => True
       | product :: _ =>
           ∃ e, product_record response product = Raise e
                ∧ (parse (Req := Req) response).2 = Raise e
       end)
  ∧ (products_extracted response →
     Forall2 (λ product record, product_record response product = Ok record)
       (response_css response ".product-item")
       (records (parse (Req := Req) response))
     ∧ one_record_per_product (Req := Req) response)
  ∧ ∀ product (name price rating image_url description brand category
               href joined : string),
      get (css product ".product-name::text") = Some name →
      get (css product ".product-price::text") = Some price →
      get (css product ".product-rating::attr(data-rating)") = Some rating →
      get (css product ".product-image img::attr(src)") = Some image_url →
      get (css product ".product-description::text") = Some description →
      get (css product ".product-brand::text") = Some brand →
      get (css product ".product-category::text") = Some category →
      get (css product ".product-link::attr(href)") = Some href →
      response_urljoin_str response href = Ok joined →
      ∃ record : item,
        product_record response product = Ok record
        ∧ record !! "name" = Some (Some name)
        ∧ record !! "price" = Some (Some price)
        ∧ record !! "rating" = Some (Some rating)
        ∧ record !! "image_url" = Some (Some image_url)
        ∧ record !! "description" = Some (Some description)
        ∧ record !! "brand" = Some (Some brand)
        ∧ record !! "category" = Some (Some category)
        ∧ record !! "url" = Some (Some joined)
        ∧ dom record
          = ({["name"; "price"; "rating"; "image_url"; "description";
               "brand"; "category"; "url"]} : gset string).
Proof.
  split; [| split].
  - destruct (parse_run response) as (done & rest & recs & Hsplit & Hrecs & Hend).
    exists done, rest. split; [done |].
    destruct rest as [|p rest'].
    + rewrite Hend, records_items, records_fst, records_follow_next_page,
        app_nil_r.
      by split.
    + destruct Hend as [e [Hp Hparse]].
      rewrite Hparse, records_only_items. split; [done |]. by exists e.
  - intros Hall. destruct (parse_cases response) as [[_ Hrun] | [Hnot _]];
      [| by destruct Hnot].
    destruct Hrun as [recs [Hrecs Hparse]].
    unfold one_record_per_product.
    rewrite Hparse, records_items, records_fst, records_follow_next_page,
      app_nil_r.
    split; [done |]. symmetry. by eapply Forall2_length.
  - intros product name price rating image_url description brand category
      href joined Hn Hp Hr Hi Hd Hb Hc Hh Hj.
    apply response_urljoin_Some in Hj.
    eexists. split.
    { rewrite product_record_unfold, Hh, Hj. reflexivity. }
    rewrite Hn, Hp, Hr, Hi, Hd, Hb, Hc.
    repeat (split; [by simplify_map_eq |]).
    rewrite !dom_insert_L, dom_empty_L. set_solver.
Qed.


End Spec.

Lemma parse_one_record_per_product_witness :
  ∃ record : item,
    product_record page_with_next full_product = Ok record
    ∧ record !! "name" = Some (Some "Lipstick")
    ∧ record !! "price" = Some (Some "19.99")
    ∧ record !! "rating" = Some (Some "4.5")
    ∧ record !! "image_url" = Some (Some "/img/1.png")
    ∧ record !! "description" = Some (Some "Matte red")
    ∧ record !! "brand" = Some (Some "Glam")
    ∧ record !! "category" = Some (Some "Lips")
    ∧ record !! "url" = Some (Some "https://example-beauty-site.com/p/1")
    ∧ dom record
      = ({["name"; "price"; "rating"; "image_url"; "description";
           "brand"; "category"; "url"]} : gset string).
Proof.
  apply (proj2 (proj2 (parse_one_record_per_product (Req := Request)
                         page_with_next))
           full_product "Lipstick" "19.99" "4.5" "/img/1.png" "Matte red"
           "Glam" "Lips" "/p/1" "https://example-beauty-site.com/p/1");
    reflexivity.
Defined.

(** C8 as stated fails: the first of two product elements has a link whose
    href [response.urljoin] rejects, and [parse] yields no record at all
    and ends with [ValueError]. *)
Lemma bad_href_stops_records :
  response_css page_with_bad_href ".product-item"
  = [product_with_bad_href; full_product]
  ∧ parse (Req := Request) page_with_bad_href
    = ([], Raise (ValueError "Invalid IPv6 URL"))
  ∧ ¬ one_record_per_product (Req := Request) page_with_bad_href.
Proof.
  split; [reflexivity |]. split; [reflexivity |].
  unfold one_record_per_product. vm_compute. discriminate.
Qed.




Example parse_empty_page : parse (Req := Request) empty_page = ([], Ok tt).
Proof. reflexivity. Qed.

Example parse_page_with_next_requests :
  requests (parse page_with_next)
  = [mkRequest "https://example-beauty-site.com/page/2" (cb_method "parse")]
  ∧ length (records (parse (Req := Request) page_with_next)) = 2%nat.
Proof. split; reflexivity. Qed.

(** A pagination href the request constructor rejects: the record is
    yielded, then the generator ends with the error and no request. *)
Example parse_page_with_mailto_next :
  length (records (parse (Req := Request) page_with_mailto_next)) = 1%nat
  ∧ requests (parse (Req := Request) page_with_mailto_next) = []
  ∧ (parse (Req := Request) page_with_mailto_next).2
    = Raise (ValueError "Missing scheme in request url: mailto:shop@example.com").
Proof. repeat split; reflexivity. Qed.

(** C1 on a product element without a link: the record is yielded, the
    fields whose selectors match nothing are [None], but the url field is
    the page's own URL, not absent. *)
Theorem parse_missing_link_gives_page_url :
  get (css product_without_link ".product-link::attr(href)") = None
  ∧ records (parse (Req := Request) page_without_link)
    = [dict_literal [
         ("name", Some "Lipstick"); ("price", Some "19.99");
         ("rating", None); ("image_url", None); ("description", None);
         ("brand", None); ("category", None);
         ("url", Some "https://example-beauty-site.com/products")]]
  ∧ ¬ missing_link_url_absent page_without_link product_without_link.
Proof.
  split; [reflexivity |]. split; [reflexivity |].
  intros Habs. destruct (Habs eq_refl) as [record [Hr Hurl]].
  apply product_record_url in Hr as [url [Hu Hl]].
  unfold field_absent in Hurl. rewrite Hl in Hurl.
  injection Hurl as ->. discriminate Hu.
Qed.

End BeautyProductSpiderSpec.

(** ** Further properties of the string primitives *)

Section StringCancel.
Import Py.

Lemma length_append (s t : string) :
  String.length (s +:+ t) = (String.length s + String.length t)%nat.
Proof.
  induction s as [|a s IH]; [done |].
  rewrite append_cons. simpl. by rewrite IH.
Qed.

(** Two equal concatenations with heads of equal length agree part by
    part. *)
Lemma append_eq_same_length (s s' t t' : string) :
  String.length s = String.length s' →
  s +:+ t = s' +:+ t' → s = s' ∧ t = t'.
Proof.
  revert s'. induction s as [|a s IH]; intros [|a' s'] Hlen Heq;
    try discriminate Hlen.
  - done.
  - rewrite !append_cons in Heq. injection Heq as -> Heq.
    injection Hlen as Hlen. destruct (IH s' Hlen Heq) as [-> ->]. done.
Qed.

(** A common tail cancels, also behind two separator characters. *)
Lemma append_cancel_tail (s s' tail : string) (c c' : ascii) :
  s +:+ String c tail = s' +:+ String c' tail → s = s'.
Proof.
  intros Heq.
  assert (Hlen : String.length s = String.length s').
  { apply (f_equal String.length) in Heq.
    rewrite !length_append in Heq. simpl in Heq. lia. }
  by destruct (append_eq_same_length _ _ _ _ Hlen Heq).
Qed.

Lemma append_cancel_r (s s' tail : string) :
  s +:+ tail = s' +:+ tail → s = s'.
Proof.
  intros Heq.
  assert (Hlen : String.length s = String.length s').
  { apply (f_equal String.length) in Heq.
    rewrite !length_append in Heq. lia. }
  by destruct (append_eq_same_length _ _ _ _ Hlen Heq).
Qed.

Lemma append_nonempty_neq (s : string) (c : ascii) (t : string) :
  s +:+ String c t ≠ s.
Proof.
  intros Heq. apply (f_equal String.length) in Heq.
  rewrite length_append in Heq. simpl in Heq. lia.
Qed.

Lemma str_contains_app (c : ascii) (s t : string) :
  str_contains c (s +:+ t) = str_contains c s || str_contains c t.
Proof.
  induction s as [|a s IH]; [done |].
  rewrite append_cons. simpl. by case_decide.
Qed.

Lemma str_contains_false_count (c : ascii) (s : string) :
  str_contains c s = false → str_count c s = 0%nat.
Proof.
  induction s as [|a s IH]; simpl; [done |].
  case_decide; [done |]. intros Hc. by rewrite IH.
Qed.

End StringCancel.

(** ** Further properties of the Affiliate Linker *)

Module AffiliateLinkGeneratorFacts2.
Import Py AffiliateLinkGenerator AffiliateLinkGeneratorFacts.

(** The link determines the product URL. *)
Lemma link_of_inj (ids : gmap string string) (platform u1 u2 : string) :
  link_of ids platform u1 = link_of ids platform u2 → u1 = u2.
Proof.
  unfold link_of. destruct (ids !! platform) as [affiliate_id|]; [| done].
  repeat case_decide; [| | done].
  - destruct (str_contains "?" u1), (str_contains "?" u2);
      apply append_cancel_tail.
  - apply append_cancel_r.
Qed.

(** The link is the product URL only where no rule rewrites it. *)
Lemma link_of_unchanged_iff (ids : gmap string string) (platform u : string) :
  link_of ids platform u = u
  ↔ ids !! platform = None ∨ (platform ≠ "sephora" ∧ platform ≠ "amazon").
Proof.
  unfold link_of. destruct (ids !! platform) as [affiliate_id|]; [| by split; auto].
  destruct (decide (platform = "sephora")) as [Hs | Hs].
  { split.
    - intros Heq. exfalso. revert Heq.
      destruct (str_contains "?" u); apply append_nonempty_neq.
    - intros [Hn | [Hn _]]; [discriminate Hn | done]. }
  destruct (decide (platform = "amazon")) as [Ha | Ha].
  { split.
    - intros Heq. exfalso. revert Heq. apply append_nonempty_neq.
    - intros [Hn | [_ Hn]]; [discriminate Hn | done]. }
  split; auto.
Qed.

End AffiliateLinkGeneratorFacts2.

Module AffiliateLinkGeneratorExtra.
Import Py AffiliateLinkGenerator AffiliateLinkGeneratorFacts
  AffiliateLinkGeneratorFacts2.

(** X1. For a fixed instance and platform, different product URLs get
    different links: the product URL can be recovered from the link. *)
Theorem generate_link_injective
    (self : instance) (platform u1 u2 : string) :
  u1 ≠ u2 →
  (generate_link platform u1 self).1 ≠ (generate_link platform u2 self).1.
Proof.
  intros Hne Heq. rewrite !generate_link_run in Heq. simpl in Heq.
  injection Heq as Heq. by apply link_of_inj in Heq.
Qed.

Lemma generate_link_injective_witness :
  "https://sephora.com/p/1" ≠ "https://sephora.com/p/1?color=red"
  ∧ (generate_link "sephora" "https://sephora.com/p/1" init).1
    ≠ (generate_link "sephora" "https://sephora.com/p/1?color=red" init).1.
Proof.
  split; [discriminate |].
  apply (generate_link_injective init "sephora" "https://sephora.com/p/1"
           "https://sephora.com/p/1?color=red").
  discriminate.
Defined.

(** X2. A sephora link always contains a ['?'], so linking a link again
    appends a second parameter with ['&']: [generate_link] is not
    idempotent on sephora URLs. *)
Theorem generate_link_sephora_twice
    (self : instance) (affiliate_id product_url : string) :
  affiliate_ids self !! "sephora" = Some affiliate_id →
  ∃ link : string,
    generate_link "sephora" product_url self = (Ok link, self)
    ∧ str_contains "?" link = true
    ∧ generate_link "sephora" link self
      = (Ok (link +:+ "&affiliate=" +:+ affiliate_id), self).
Proof.
  intros Hid.
  assert (Hq : str_contains "?"
                 (link_of (affiliate_ids self) "sephora" product_url) = true).
  { unfold link_of. rewrite Hid, decide_True by done.
    rewrite str_contains_app.
    destruct (str_contains "?" product_url); [done |].
    by rewrite str_contains_app. }
  eexists. split; [apply generate_link_run |]. split; [exact Hq |].
  rewrite generate_link_run. f_equal. f_equal.
  unfold link_of at 1. rewrite Hid, decide_True by done.
  by rewrite Hq.
Qed.

Lemma generate_link_sephora_twice_witness :
  affiliate_ids init !! "sephora" = Some "your_sephora_affiliate_id"
  ∧ ∃ link : string,
      generate_link "sephora" "https://sephora.com/p/1" init = (Ok link, init)
      ∧ str_contains "?" link = true
      ∧ generate_link "sephora" link init
        = (Ok (link +:+ "&affiliate=" +:+ "your_sephora_affiliate_id"), init).
Proof.
  split; [reflexivity |].
  apply (generate_link_sephora_twice init "your_sephora_affiliate_id"
           "https://sephora.com/p/1").
  reflexivity.
Defined.

(** X3. The sephora rule adds a ['?'] only to a URL that has none: the link
    has as many ['?'] as the URL, or one if the URL has none, plus those of
    the affiliate id. *)
Theorem generate_link_sephora_question_marks
    (self : instance) (affiliate_id product_url : string) :
  affiliate_ids self !! "sephora" = Some affiliate_id →
  ∃ link : string,
    generate_link "sephora" product_url self = (Ok link, self)
    ∧ str_count "?" link
      = (Nat.max 1 (str_count "?" product_url) + str_count "?" affiliate_id)%nat.
Proof.
  intros Hid. eexists. split; [apply generate_link_run |].
  unfold link_of. rewrite Hid, decide_True by done.
  destruct (str_contains "?" product_url) eqn:Hq.
  - apply str_contains_count in Hq.
    rewrite !str_count_app. simpl. lia.
  - apply str_contains_false_count in Hq.
    rewrite !str_count_app, Hq. simpl. lia.
Qed.

Lemma generate_link_sephora_question_marks_witness :
  affiliate_ids init !! "sephora" = Some "your_sephora_affiliate_id"
  ∧ ∃ link : string,
      generate_link "sephora" "https://sephora.com/p/1?color=red" init
      = (Ok link, init)
      ∧ str_count "?" link
        = (Nat.max 1 (str_count "?" "https://sephora.com/p/1?color=red")
           + str_count "?" "your_sephora_affiliate_id")%nat.
Proof.
  split; [reflexivity |].
  apply (generate_link_sephora_question_marks init "your_sephora_affiliate_id"
           "https://sephora.com/p/1?color=red").
  reflexivity.
Defined.

(** X4. [generate_link] returns the product URL unchanged exactly when the
    platform is not in the table or is neither ['sephora'] nor ['amazon'];
    for a sephora or amazon entry the link always differs from the URL, even
    with an empty affiliate id. *)
Theorem generate_link_unchanged_iff
    (self : instance) (platform product_url : string) :
  generate_link platform product_url self = (Ok product_url, self)
  ↔ affiliate_ids self !! platform = None
    ∨ (platform ≠ "sephora" ∧ platform ≠ "amazon").
Proof.
  rewrite generate_link_run, <- link_of_unchanged_iff.
  split; [by intros [= ->] | by intros ->].
Qed.

Lemma generate_link_unchanged_iff_witness :
  generate_link "amazon" "https://amazon.ae/p/1"
    (Instance (<["amazon" := ""]> ∅))
  ≠ (Ok "https://amazon.ae/p/1", Instance (<["amazon" := ""]> ∅)).
Proof.
  intros Heq.
  apply (proj1 (generate_link_unchanged_iff (Instance (<["amazon" := ""]> ∅))
                  "amazon" "https://amazon.ae/p/1")) in Heq.
  destruct Heq as [Hn | [_ Hn]]; [discriminate Hn | by apply Hn].
Defined.

End AffiliateLinkGeneratorExtra.

(** ** Further properties of the Extractor *)

Module BeautyProductSpiderExtra.
Import Py PyResult Scrapy BeautyProductSpider BeautyProductSpiderFacts Canned
  Examples.

Section Extra.
Context `{SelectorAPI Sel} `{RequestAPI Sel Req} `{Urllib.UrlChecks}.
Implicit Types (response : Response Sel) (product : Sel).

(** X5. Every record [parse] yields has the same eight keys, whatever the
    selectors match in its product element: a missing sub-element gives a
    [None] value, never a missing key. *)
Theorem parse_records_have_eight_keys response (record : item) :
  record ∈ records (parse (Req := Req) response) →
  dom record
  = ({["name"; "price"; "rating"; "image_url"; "description"; "brand";
       "category"; "url"]} : gset string).
Proof.
  intros Hin.
  assert (Hrecs : ∃ (products : list Sel) (recs : list item),
    Forall2 (λ product r, product_record response product = Ok r) products recs
    ∧ records (parse (Req := Req) response) = recs).
  { destruct (parse_run (Req := Req) response)
      as (done & rest & recs & _ & Hall & Hend).
    exists done, recs. split; [done |].
    destruct rest as [|p rest'].
    - by rewrite Hend, records_items, records_fst, records_follow_next_page,
        app_nil_r.
    - destruct Hend as [e [_ ->]]. apply records_only_items. }
  destruct Hrecs as (products & recs & Hall & Heq). rewrite Heq in Hin.
  apply list_elem_of_lookup in Hin as [i Hi].
  destruct (Forall2_lookup_r _ _ _ _ _ Hall Hi) as (product & _ & Hr).
  by eapply product_record_dom.
Qed.

(** X6. When [parse] ends without error it has yielded one output per
    product element, and one more when the pagination href is a non-empty
    string; it never yields more than that.  It yields nothing and ends
    without error exactly when the page has no product element and no
    non-empty pagination href. *)
Theorem parse_output_count response :
  ((parse (Req := Req) response).2 = Ok tt →
   length (parse (Req := Req) response).1
   = (length (response_css response ".product-item")
      + (if truthy_opt (get (response_css response ".next-page::attr(href)"))
         then 1 else 0))%nat)
  ∧ (length (parse (Req := Req) response).1
     ≤ length (response_css response ".product-item") + 1)%nat
  ∧ (parse (Req := Req) response = ([], Ok tt)
     ↔ response_css response ".product-item" = []
       ∧ truthy_opt (get (response_css response ".next-page::attr(href)"))
         = false).
Proof.
  pose proof (follow_next_page_cases (Req := Req) response) as Hc.
  split; [| split; [| split]].
  - intros Hok.
    destruct (parse_cases (Req := Req) response)
      as [[_ (recs & Hall & Hparse)] | [_ (recs & e & _ & Hparse)]];
      rewrite Hparse in Hok |- *; simpl in Hok |- *; [| discriminate Hok].
    apply Forall2_length in Hall.
    rewrite length_app, length_map, <- Hall.
    destruct (get (response_css response ".next-page::attr(href)"))
      as [[|a href]|]; rewrite Hc in Hok |- *; simpl; try lia.
    destruct (response_follow response (String a href) (cb_method "parse"));
      [simpl; lia | discriminate Hok].
  - destruct (parse_cases (Req := Req) response)
      as [[_ (recs & Hall & Hparse)] | [_ (recs & e & Hlen & Hparse)]];
      rewrite Hparse; simpl.
    + apply Forall2_length in Hall.
      rewrite length_app, length_map, <- Hall.
      pose proof (requests_follow_next_page_le (Req := Req) response) as Hle.
      rewrite (follow_next_page_ordered (Req := Req) response), length_map.
      lia.
    + rewrite length_map. lia.
  - intros Hnil.
    destruct (parse_cases (Req := Req) response)
      as [[_ (recs & Hall & Hparse)] | [_ (recs & e & _ & Hparse)]];
      rewrite Hparse in Hnil; [| discriminate Hnil].
    injection Hnil as Houts Hend.
    apply app_eq_nil in Houts as [Hrecs Houts].
    destruct recs as [|r recs]; [| discriminate Hrecs].
    apply Forall2_length in Hall. split.
    + by destruct (response_css response ".product-item").
    + destruct (get (response_css response ".next-page::attr(href)"))
        as [[|a href]|]; try done.
      rewrite Hc in Houts, Hend.
      destruct (response_follow response (String a href) (cb_method "parse"));
        [discriminate Houts | discriminate Hend].
  - intros [Hnil Hfalse].
    rewrite parse_unfold, Hnil. simpl.
    destruct (get (response_css response ".next-page::attr(href)"))
      as [[|a href]|]; try discriminate Hfalse; by rewrite Hc.
Qed.

(** X7. Each of the seven fields name, price, rating, image_url,
    description, brand and category depends only on what its own selector
    matches first in the product element: the records of two product
    elements, on any pages, whose selector for a field gives the same
    first match have the same value for that field. *)
Theorem product_record_field_depends_on_own_selector
    response (response' : Response Sel) product (product' : Sel)
    (record record' : item) (field query : string) :
  (field, query) ∈ selected_fields →
  get (css product query) = get (css product' query) →
  product_record response product = Ok record →
  product_record response' product' = Ok record' →
  record !! field = record' !! field.
Proof.
  intros Hin Hget Hr Hr'.
  by rewrite (product_record_selected _ _ _ _ _ Hr Hin),
    (product_record_selected _ _ _ _ _ Hr' Hin), Hget.
Qed.

(** X8. For each of these seven fields, the value in the record of a
    product element is [None] exactly when the selector matches nothing in
    the element; when it matches, the value is the data of the first
    match, whatever follows it. *)
Theorem product_record_field_first_match
    response product (record : item) (field query : string) :
  (field, query) ∈ selected_fields →
  product_record response product = Ok record →
  (field_absent record field ↔ css product query = [])
  ∧ ∀ (first : Sel) (others : list Sel),
      css product query = first :: others →
      record !! field = Some (Some (get_data first)).
Proof.
  intros Hin Hr. split; [by eapply product_record_selected_absent |].
  intros first others Hcss.
  by rewrite (product_record_selected _ _ _ _ _ Hr Hin), Hcss.
Qed.

(** X9. On a page with a non-empty base URL the url field of a record is
    always a string: the href of the product link joined to the base URL,
    and the base URL itself when the link is missing or its href is empty,
    in which case the record is always built. *)
Theorem product_record_url_is_string response product (base : string) :
  base_url response = Ok base →
  base ≠ "" →
  (∀ record : item,
     product_record response product = Ok record →
     ∃ u : string, record !! "url" = Some (Some u))
  ∧ (∀ (href joined : string),
       get (css product ".product-link::attr(href)") = Some href →
       Urllib.urljoin_str base href = Ok joined →
       ∃ record : item,
         product_record response product = Ok record
         ∧ record !! "url" = Some (Some joined))
  ∧ (get (css product ".product-link::attr(href)") = None
     ∨ get (css product ".product-link::attr(href)") = Some "" →
     ∃ record : item,
       product_record response product = Ok record
       ∧ record !! "url" = Some (Some base)).
Proof.
  intros Hb Hbase.
  assert (Hbuild : ∀ url : option string,
    response_urljoin response (get (css product ".product-link::attr(href)"))
    = Ok url →
    ∃ record : item,
      product_record response product = Ok record ∧ record !! "url" = Some url).
  { intros url Hu.
    destruct (product_record_Ok_intro response product url Hu) as [record Hr].
    exists record. split; [done |].
    destruct (product_record_url _ _ _ Hr) as [url' [Hu' Hl]].
    rewrite Hu in Hu'. by injection Hu' as <-. }
  split; [| split].
  - intros record Hr.
    destruct (product_record_url _ _ _ Hr) as [url [Hu Hl]].
    rewrite (response_urljoin_base _ _ _ Hb) in Hu.
    destruct (UrllibFacts.urljoin_Ok_is_Some _ _ _ Hbase Hu) as [u ->].
    by exists u.
  - intros href joined Hget Hj. apply Hbuild.
    rewrite Hget, (response_urljoin_base _ _ _ Hb).
    by apply UrllibFacts.urljoin_Some.
  - intros Hget. apply Hbuild. rewrite (response_urljoin_base _ _ _ Hb).
    destruct Hget as [-> | ->].
    + by apply UrllibFacts.urljoin_None.
    + by apply UrllibFacts.urljoin_empty.
Qed.

End Extra.

Lemma parse_records_have_eight_keys_witness :
  ∃ record : item,
    record ∈ records (parse (Req := Request) page_without_link)
    ∧ dom record
      = ({["name"; "price"; "rating"; "image_url"; "description"; "brand";
           "category"; "url"]} : gset string).
Proof.
  eexists. 
  assert (Hin : dict_literal [
         ("name", Some "Lipstick"); ("price", Some "19.99");
         ("rating", None); ("image_url", None); ("description", None);
         ("brand", None); ("category", None);
         ("url", Some "https://example-beauty-site.com/products")]
       ∈ records (parse (Req := Request) page_without_link)).
  { apply list_elem_of_here. }
  split; [exact Hin |].
  apply (parse_records_have_eight_keys (Req := Request) page_without_link _ Hin).
Defined.

Lemma parse_output_count_witness :
  (parse (Req := Request) page_with_empty_next).2 = Ok tt
  ∧ length (parse (Req := Request) page_with_empty_next).1 = 1%nat.
Proof.
  split; [reflexivity |].
  etrans; [apply (proj1 (parse_output_count (Req := Request)
                           page_with_empty_next)) |];
    reflexivity.
Defined.

Lemma product_record_field_depends_on_own_selector_witness :
  ("price", ".product-price::text") ∈ selected_fields
  ∧ get (css full_product ".product-price::text")
    = get (css product_without_link ".product-price::text")
  ∧ ∃ record record' : item,
      product_record page_with_next full_product = Ok record
      ∧ product_record page_without_link product_without_link = Ok record'
      ∧ record !! "price" = record' !! "price".
Proof.
  assert (Hin : ("price", ".product-price::text") ∈ selected_fields).
  { unfold selected_fields. apply list_elem_of_further, list_elem_of_here. }
  split; [exact Hin |]. split; [reflexivity |].
  eexists _, _. split; [reflexivity |]. split; [reflexivity |].
  apply (product_record_field_depends_on_own_selector page_with_next
           page_without_link full_product product_without_link _ _
           "price" ".product-price::text" Hin);
    reflexivity.
Defined.

Lemma product_record_field_first_match_witness :
  ("rating", ".product-rating::attr(data-rating)") ∈ selected_fields
  ∧ css product_without_link ".product-rating::attr(data-rating)" = []
  ∧ ∃ record : item,
      product_record page_without_link product_without_link = Ok record
      ∧ field_absent record "rating".
Proof.
  assert (Hin : ("rating", ".product-rating::attr(data-rating)")
                ∈ selected_fields).
  { unfold selected_fields.
    do 2 apply list_elem_of_further. apply list_elem_of_here. }
  split; [exact Hin |]. split; [reflexivity |].
  assert (Hr : product_record page_without_link product_without_link
               = Ok (dict_literal [
                   ("name", Some "Lipstick"); ("price", Some "19.99");
                   ("rating", None); ("image_url", None);
                   ("description", None); ("brand", None); ("category", None);
                   ("url", Some "https://example-beauty-site.com/products")])).
  { reflexivity. }
  eexists. split; [exact Hr |].
  apply (proj2 (proj1 (product_record_field_first_match page_without_link
                         product_without_link _ "rating"
                         ".product-rating::attr(data-rating)" Hin Hr))).
  reflexivity.
Defined.

Lemma product_record_url_is_string_witness :
  base_url page_without_link = Ok "https://example-beauty-site.com/products"
  ∧ "https://example-beauty-site.com/products" ≠ ""
  ∧ ∃ record : item,
      product_record page_without_link product_without_link = Ok record
      ∧ record !! "url" = Some (Some "https://example-beauty-site.com/products").
Proof.
  split; [reflexivity |]. split; [discriminate |].
  apply (proj2 (proj2 (product_record_url_is_string page_without_link
                         product_without_link
                         "https://example-beauty-site.com/products"
                         eq_refl ltac:(discriminate)))).
  left. reflexivity.
Defined.

End BeautyProductSpiderExtra.
